(** * Majima AI: the intro-sequence controller and the repository bootstrap script

    Two artefacts of the repository are embedded here:
    - [static/js/intro.js], a listener that waits, fades the page out and
      redirects to the login page (module [Intro]);
    - [init_git.bat], a batch file that puts the project under version control
      (module [Bootstrap]).

    Times are milliseconds, held in [Z].  Exit statuses are [Z] as well. *)

From Stdlib Require Import ZArith NArith List String Ascii Bool Lia.
Import ListNotations.

Open Scope string_scope.
Open Scope Z_scope.

(* ===================================================================== *)
(** * intro.js *)
(* ===================================================================== *)

Module Intro.

(** The function values the script creates, in source order.  The queue of
    timers and the listener table hold these tags; [call] below gives each
    one its body. *)
Inductive closure : Set :=
| on_loaded          (* intro.js:1  () => { ... } passed to addEventListener *)
| on_intro_elapsed   (* intro.js:6  () => { ... } passed to the outer setTimeout *)
| on_exit_elapsed.   (* intro.js:11 () => { ... } passed to the inner setTimeout *)

(** What the script does to its host, as the host observes it. *)
Inductive effect : Set :=
| ListenerAdded (type : string) (f : closure)
| TimerSet (f : closure) (delay : Z)
| ClassAdded (token : string)
| Navigated (url : string).

Record timer : Set := Timer { due : Z; handler : closure }.

(** One document in one browsing context.  [local_storage] stands for what the
    browser keeps for the origin across documents; everything else is created
    afresh with the document. *)
Record Page : Set := mkPage {
  now : Z;                                  (* clock of the event loop *)
  body_classes : list string;               (* document.body.classList *)
  location_href : string;                   (* window.location.href *)
  listeners : list (string * closure);      (* listeners on document *)
  timers : list timer;                      (* active timers, oldest first *)
  local_storage : list (string * string);
  log : list (Z * effect)                   (* effects so far, oldest first *)
}.

Definition record (e : effect) (p : Page) : Page :=
  mkPage (now p) (body_classes p) (location_href p) (listeners p) (timers p)
         (local_storage p) (log p ++ [(now p, e)]).

(** ** Host operations the script calls *)

(** document.addEventListener(type, f) *)
Definition addEventListener (type : string) (f : closure) (p : Page) : Page :=
  record (ListenerAdded type f)
    (mkPage (now p) (body_classes p) (location_href p)
            (listeners p ++ [(type, f)]) (timers p) (local_storage p) (log p)).

(** setTimeout(f, delay): a negative delay counts as zero. *)
Definition setTimeout (f : closure) (delay : Z) (p : Page) : Page :=
  record (TimerSet f delay)
    (mkPage (now p) (body_classes p) (location_href p) (listeners p)
            (timers p ++ [Timer (now p + Z.max 0 delay) f])
            (local_storage p) (log p)).

Definition has_token (token : string) (l : list string) : bool :=
  existsb (String.eqb token) l.

(** classList.add(token): the token list is an ordered set. *)
Definition classList_add (token : string) (p : Page) : Page :=
  record (ClassAdded token)
    (mkPage (now p)
            (if has_token token (body_classes p) then body_classes p
             else body_classes p ++ [token])
            (location_href p) (listeners p) (timers p) (local_storage p) (log p)).

(** window.location.href = url *)
Definition set_location_href (url : string) (p : Page) : Page :=
  record (Navigated url)
    (mkPage (now p) (body_classes p) url (listeners p) (timers p)
            (local_storage p) (log p)).

(** ** The script *)

(** intro.js:4  const introDuration = 4500; *)
Definition introDuration : Z := 4500.

(** intro.js:13  the delay of the inner setTimeout *)
Definition exitDuration : Z := 800.

(** intro.js:3  the four phases the comment above [introDuration] gives as its
    make-up, in milliseconds: Title (1.5s), Subtitle Delay (1.2s), Subtitle
    Animation (1s), Pause (1.5s). *)
Definition documented_phases : list Z := [1500; 1200; 1000; 1500].

Definition documented_total : Z := fold_right Z.add 0 documented_phases.

(** The bodies of the three arrow functions. *)
Definition call (f : closure) (p : Page) : Page :=
  match f with
  | on_loaded =>
      setTimeout on_intro_elapsed introDuration p
  | on_intro_elapsed =>
      setTimeout on_exit_elapsed exitDuration (classList_add "fade-out" p)
  | on_exit_elapsed =>
      set_location_href "/login" p
  end.

(** The top level of intro.js: one statement. *)
Definition script (p : Page) : Page :=
  addEventListener "DOMContentLoaded" on_loaded p.

(** ** The host: event dispatch and the timer loop *)

Definition advance (d : N) (p : Page) : Page :=
  mkPage (now p + Z.of_N d) (body_classes p) (location_href p) (listeners p)
         (timers p) (local_storage p) (log p).

(** Fire an event on the document: its listeners run in registration order. *)
Definition dispatch (type : string) (p : Page) : Page :=
  fold_left (fun q l => if String.eqb (fst l) type then call (snd l) q else q)
            (listeners p) p.

(** The timer that is due first (the oldest one among equals), and the rest. *)
Fixpoint pick (ts : list timer) : option (timer * list timer) :=
  match ts with
  | [] => None
  | t :: rest =>
      match pick rest with
      | Some (u, rest') =>
          if due u <? due t then Some (u, t :: rest') else Some (t, rest)
      | None => Some (t, [])
      end
  end.

(** Run timer [t], [late] milliseconds after it became due. *)
Definition fire (t : timer) (rest : list timer) (late : N) (p : Page) : Page :=
  call (handler t)
    (mkPage (Z.max (now p) (due t) + Z.of_N late) (body_classes p)
            (location_href p) (listeners p) rest (local_storage p) (log p)).

(** The event loop.  Each element of [lateness] is the delay the host adds to
    one timer callback; the loop runs one callback per element and stops early
    when no timer is left. *)
Fixpoint event_loop (lateness : list N) (p : Page) : Page :=
  match lateness with
  | [] => p
  | late :: more =>
      match pick (timers p) with
      | None => p
      | Some (t, rest) => event_loop more (fire t rest late p)
      end
  end.

(** What a document of the intro page starts from: the storage of its origin,
    the classes the markup gives to the body, and its own address.  None of
    them is fixed by the script. *)
Record Host : Set := mkHost {
  stored : list (string * string);
  markup_classes : list string;
  address : string
}.

(** A document that has just started to load at time [t]. *)
Definition new_document (h : Host) (t : Z) : Page :=
  mkPage t (markup_classes h) (address h) [] [] (stored h) [].

(** One load of the intro page: the script runs while the document is parsed,
    DOMContentLoaded fires [wait] ms later, then the timers run. *)
Definition load (h : Host) (t : Z) (wait : N) (lateness : list N) : Page :=
  event_loop lateness
    (dispatch "DOMContentLoaded" (advance wait (script (new_document h t)))).

(** The instant of the trigger in [load]. *)
Definition trigger (t : Z) (wait : N) : Z := t + Z.of_N wait.

(** A second load of the same page in the same tab, [gap] ms after the state
    [prev] of the first: a new document, which inherits the origin's storage
    and the running clock and nothing else. *)
Definition reload (h : Host) (prev : Page) (gap : N) (wait : N)
    (lateness : list N) : Page :=
  load (mkHost (local_storage prev) (markup_classes h) (address h))
       (now prev + Z.of_N gap) wait lateness.

(** ** Views of the log *)

Definition is_class_added (e : effect) : bool :=
  match e with ClassAdded _ => true | _ => false end.

Definition is_navigated (e : effect) : bool :=
  match e with Navigated _ => true | _ => false end.

Definition is_timer_set (e : effect) : bool :=
  match e with TimerSet _ _ => true | _ => false end.

Definition effects (p : Page) : list effect := map snd (log p).

Definition navigations (p : Page) : list effect := filter is_navigated (effects p).

Definition class_changes (p : Page) : list effect :=
  filter is_class_added (effects p).

(** The log with times counted from [t0]. *)
Definition timeline_from (t0 : Z) (p : Page) : list (Z * effect) :=
  map (fun te => (fst te - t0, snd te)) (log p).

End Intro.

(* ===================================================================== *)
(** * init_git.bat *)
(* ===================================================================== *)

Module Bootstrap.

(** What a run of the batch file shows to its user, in order: a line on the
    console, an external command, or a wait for a key. *)
Inductive action : Set :=
| Print (text : string)
| Exec (cmdline : string)
| Pause.

(** How a block of the batch file ends: it runs on to the next line, or it
    leaves the file through [exit /b], with the operand of [exit] if it has
    one. *)
Inductive flow (A : Type) : Type :=
| Next (a : A)
| Leave (code : option Z).

Arguments Next {A} a.
Arguments Leave {A} code.

Section Shell.

(** Whatever the external commands act on (the file system, the PATH). *)
Variable World : Type.

(** Running one command line: the world after it and its exit status. *)
Variable exec : string -> World -> World * Z.

Record Cmd : Type := mkCmd {
  world : World;
  errorlevel : Z;              (* the dynamic ERRORLEVEL of the interpreter *)
  echoing : bool;              (* command echo, on when the file starts *)
  console : list action
}.

Definition bat (A : Type) : Type := Cmd -> flow A * Cmd.

Definition ret {A} (a : A) : bat A := fun s => (Next a, s).

Definition bind {A B} (m : bat A) (k : A -> bat B) : bat B :=
  fun s =>
    match m s with
    | (Next a, s') => k a s'
    | (Leave code, s') => (Leave code, s')
    end.

Definition emit (a : action) : bat unit :=
  fun s => (Next tt, mkCmd (world s) (errorlevel s) (echoing s) (console s ++ [a])).

(** [@echo off] *)
Definition echo_off : bat unit :=
  fun s => (Next tt, mkCmd (world s) (errorlevel s) false (console s)).

(** [echo text], and [echo.] for the empty line: ERRORLEVEL stays. *)
Definition echo (text : string) : bat unit := emit (Print text).

(** [pause]: ERRORLEVEL stays. *)
Definition pause : bat unit := emit Pause.

(** An external command: its exit status becomes ERRORLEVEL. *)
Definition external (cmdline : string) : bat unit :=
  fun s =>
    let (w, status) := exec cmdline (world s) in
    (Next tt, mkCmd w status (echoing s) (console s ++ [Exec cmdline])).

(** [%errorlevel%] *)
Definition get_errorlevel : bat Z := fun s => (Next (errorlevel s), s).

(** [exit /b] and [exit /b code]: without an operand ERRORLEVEL stays. *)
Definition exit_b (code : option Z) : bat unit :=
  fun s =>
    (Leave code,
     mkCmd (world s)
           (match code with Some c => c | None => errorlevel s end)
           (echoing s) (console s)).

(** [if a neq b ( block )] on numbers *)
Definition if_neq (a b : Z) (block : bat unit) : bat unit :=
  if negb (a =? b) then block else ret tt.

End Shell.

Arguments ret {World A} a.
Arguments bind {World A B} m k.
Arguments emit {World} a.
Arguments echo_off {World}.
Arguments echo {World} text.
Arguments pause {World}.
Arguments get_errorlevel {World}.
Arguments exit_b {World} code.
Arguments if_neq {World} a b block.

Declare Scope bat_scope.
Delimit Scope bat_scope with bat.
Notation "x <- m ;; k" := (bind m (fun x => k))
  (at level 61, m at next level, right associativity) : bat_scope.
Notation "m ;; k" := (bind m (fun _ => k))
  (at level 61, right associativity) : bat_scope.

(** The double quote, for the one line of the file that has one. *)
Definition dquote : ascii := "034"%char.

Definition quoted (s : string) : string :=
  String dquote (s ++ String dquote EmptyString).

Definition git_init : string := "git init".
Definition git_add : string := "git add .".
(** init_git.bat:12 *)
Definition git_commit : string := "git commit -m " ++ quoted "Initial commit for Majima AI".

Definition diagnostic : string :=
  "Error: Git is still not recognized. Please restart VS Code/Terminal and try again.".

(** init_git.bat, line by line. *)
Definition init_git {World} (exec : string -> World -> World * Z) : bat World unit :=
  (echo_off ;;
   echo "Initializing Git Repository..." ;;
   external World exec git_init ;;
   lvl <- get_errorlevel ;;
   if_neq lvl 0
     (echo diagnostic ;;
      pause ;;
      exit_b None) ;;
   echo "Adding files..." ;;
   external World exec git_add ;;
   external World exec git_commit ;;
   echo "" ;;
   echo "Git repository initialized successfully!" ;;
   echo "" ;;
   echo "Next steps:" ;;
   echo "1. Create a new repository on GitHub.com" ;;
   echo "2. Run the commands shown on GitHub, for example:" ;;
   echo "   git remote add origin https://github.com/YOUR_USERNAME/YOUR_REPO_NAME.git" ;;
   echo "   git branch -M main" ;;
   echo "   git push -u origin main" ;;
   echo "" ;;
   pause)%bat.

(** A run of the file from a shell whose ERRORLEVEL is [lvl]. *)
Definition run {World} (exec : string -> World -> World * Z) (w : World) (lvl : Z)
    : flow unit * Cmd World :=
  init_git exec (mkCmd World w lvl true []).

Definition init_status {World} (exec : string -> World -> World * Z) (w : World) : Z :=
  snd (exec git_init w).

(** ** The parts of the console the contract names *)

(** Step 1 up to the check of step 2. *)
Definition initialization : list action :=
  [Print "Initializing Git Repository..."; Exec git_init].

(** The block of step 2. *)
Definition failure_report : list action := [Print diagnostic; Pause].

(** Steps 3 and 4. *)
Definition staging_and_commit : list action :=
  [Print "Adding files..."; Exec git_add; Exec git_commit].

Definition success_message : action := Print "Git repository initialized successfully!".

(** Step 5. *)
Definition instructions : list action :=
  [ Print "";
    success_message;
    Print "";
    Print "Next steps:";
    Print "1. Create a new repository on GitHub.com";
    Print "2. Run the commands shown on GitHub, for example:";
    Print "   git remote add origin https://github.com/YOUR_USERNAME/YOUR_REPO_NAME.git";
    Print "   git branch -M main";
    Print "   git push -u origin main";
    Print "" ].

Definition is_exec (a : action) : bool :=
  match a with Exec _ => true | _ => false end.

(** ** Command lines as the program started sees them *)

Definition token (cur : option string) : string :=
  match cur with Some w => w | None => EmptyString end.

Definition flush (cur : option string) : list string :=
  match cur with Some w => [w] | None => [] end.

(** Blanks separate the arguments except between double quotes, and the quotes
    are not part of the argument. *)
Fixpoint words (s : string) (in_quotes : bool) (cur : option string) : list string :=
  match s with
  | EmptyString => flush cur
  | String c rest =>
      if Ascii.eqb c dquote then words rest (negb in_quotes) (Some (token cur))
      else if Ascii.eqb c " " && negb in_quotes then flush cur ++ words rest false None
      else words rest in_quotes (Some (token cur ++ String c EmptyString))
  end.

Definition argv (cmdline : string) : list string := words cmdline false None.

(** The value that follows [flag] among the arguments. *)
Fixpoint option_value (flag : string) (args : list string) : option string :=
  match args with
  | [] => None
  | a :: rest =>
      if String.eqb a flag then hd_error rest else option_value flag rest
  end.

(** The commit message of a command line, when it is a [git commit]. *)
Definition commit_message (cmdline : string) : option string :=
  match argv cmdline with
  | prog :: sub :: rest =>
      if String.eqb prog "git" && String.eqb sub "commit"
      then option_value "-m" rest else None
  | _ => None
  end.

(** The messages of the commits a console shows. *)
Fixpoint commit_messages (l : list action) : list string :=
  match l with
  | [] => []
  | Exec c :: rest =>
      match commit_message c with
      | Some m => m :: commit_messages rest
      | None => commit_messages rest
      end
  | _ :: rest => commit_messages rest
  end.

(** ** Sample environments *)

(** No git on the PATH: the interpreter reports 9009 for every command. *)
Definition no_git : string -> unit -> unit * Z := fun _ _ => (tt, 9009).

(** Every command succeeds. *)
Definition git_works : string -> unit -> unit * Z := fun _ _ => (tt, 0).

(** [git init] succeeds, staging and commit fail. *)
Definition only_init_works : string -> unit -> unit * Z :=
  fun c _ => (tt, if String.eqb c git_init then 0 else 128).

End Bootstrap.

(* ===================================================================== *)
(** * Properties of intro.js *)
(* ===================================================================== *)

Module IntroFacts.
Import Intro.

(** ** The event loop *)

Lemma max_after (a d : Z) : 0 <= d -> Z.max a (a + d) = a + d.
Proof. intros; lia. Qed.

Lemma event_loop_idle (lateness : list N) (p : Page) :
  timers p = [] -> event_loop lateness p = p.
Proof.
  intros H; destruct lateness; simpl; [reflexivity | rewrite H; reflexivity].
Qed.

Lemma event_loop_fire (late : N) (more : list N) (p : Page) (t : timer) :
  timers p = [t] ->
  event_loop (late :: more) p = event_loop more (fire t [] late p).
Proof. intros H; simpl; rewrite H; reflexivity. Qed.

Lemma event_loop_app (ls more : list N) (p : Page) :
  event_loop (ls ++ more) p = event_loop more (event_loop ls p).
Proof.
  revert p; induction ls as [| late ls IH]; intros p; [reflexivity |].
  simpl. destruct (pick (timers p)) as [[t rest] |] eqn:E.
  - apply IH.
  - destruct more; simpl; [| rewrite E]; reflexivity.
Qed.

Lemma load_app (h : Host) (t : Z) (wait : N) (ls more : list N) :
  load h t wait (ls ++ more) = event_loop more (load h t wait ls).
Proof. unfold load; apply event_loop_app. Qed.

(** ** The three stages of a load *)

(** No timer has fired yet: the listener has run and the intro wait is
    pending. *)
Lemma load_pending (h : Host) (t : Z) (wait : N) :
  load h t wait [] =
  mkPage (trigger t wait) (markup_classes h) (address h)
         [("DOMContentLoaded", on_loaded)]
         [Timer (trigger t wait + introDuration) on_intro_elapsed]
         (stored h)
         [(t, ListenerAdded "DOMContentLoaded" on_loaded);
          (trigger t wait, TimerSet on_intro_elapsed introDuration)].
Proof. reflexivity. Qed.

(** The first timer has fired, [l1] ms late: the page fades and the exit wait
    is pending. *)
Lemma load_fading (h : Host) (t : Z) (wait l1 : N) :
  load h t wait [l1] =
  let t1 := trigger t wait + introDuration + Z.of_N l1 in
  mkPage t1
         (if has_token "fade-out" (markup_classes h) then markup_classes h
          else markup_classes h ++ ["fade-out"])
         (address h)
         [("DOMContentLoaded", on_loaded)]
         [Timer (t1 + exitDuration) on_exit_elapsed]
         (stored h)
         [(t, ListenerAdded "DOMContentLoaded" on_loaded);
          (trigger t wait, TimerSet on_intro_elapsed introDuration);
          (t1, ClassAdded "fade-out");
          (t1, TimerSet on_exit_elapsed exitDuration)].
Proof.
  change [l1] with ([] ++ [l1])%list.
  rewrite load_app, load_pending.
  erewrite event_loop_fire by reflexivity.
  cbv [event_loop fire call handler due now setTimeout classList_add
       record body_classes location_href listeners timers local_storage log app].
  rewrite max_after by (unfold introDuration; lia).
  rewrite (Z.max_r 0 exitDuration) by (unfold exitDuration; lia).
  reflexivity.
Qed.

(** Both timers have fired: the browser has been sent to the login page and
    nothing is pending, whatever the loop is offered afterwards. *)
Lemma load_done (h : Host) (t : Z) (wait l1 l2 : N) (rest : list N) :
  load h t wait (l1 :: l2 :: rest) =
  let t1 := trigger t wait + introDuration + Z.of_N l1 in
  let t2 := t1 + exitDuration + Z.of_N l2 in
  mkPage t2
         (if has_token "fade-out" (markup_classes h) then markup_classes h
          else markup_classes h ++ ["fade-out"])
         "/login"
         [("DOMContentLoaded", on_loaded)]
         []
         (stored h)
         [(t, ListenerAdded "DOMContentLoaded" on_loaded);
          (trigger t wait, TimerSet on_intro_elapsed introDuration);
          (t1, ClassAdded "fade-out");
          (t1, TimerSet on_exit_elapsed exitDuration);
          (t2, Navigated "/login")].
Proof.
  change (l1 :: l2 :: rest) with ([l1] ++ l2 :: rest)%list.
  rewrite load_app, load_fading; cbv zeta.
  erewrite event_loop_fire by reflexivity.
  rewrite event_loop_idle by reflexivity.
  cbv [fire call handler due now set_location_href
       record body_classes location_href listeners timers local_storage log app].
  rewrite max_after by (unfold exitDuration; lia).
  reflexivity.
Qed.

(** A load is in one of the three stages. *)
Ltac by_stage ls :=
  let l1 := fresh "l1" in
  let l2 := fresh "l2" in
  let rest := fresh "rest" in
  destruct ls as [| l1 [| l2 rest]];
  [ rewrite load_pending | rewrite load_fading | rewrite load_done ];
  cbv zeta.

(** Which entry of a log given in full a membership hypothesis is about. *)
Ltac in_log H :=
  simpl in H;
  repeat (destruct H as [H | H]);
  try contradiction; try discriminate H;
  try (inversion H; subst; clear H).

(** ** The constant and its comment *)

(** C1. The comment above [introDuration] gives four phases, 1.5 s, 1.2 s,
    1 s and 1.5 s; they add up to 5200 ms, and the constant is 4500 ms, 700 ms
    short of it.  A page loaded at time 0 whose timers run on time therefore
    gets the class at 4500 ms, before the documented phases are over. *)
Theorem introDuration_differs_from_documented_total :
  introDuration = 4500
  /\ documented_total = 5200
  /\ documented_total - introDuration = 700
  /\ In (4500, ClassAdded "fade-out") (log (load (mkHost [] [] "/") 0 0 [0%N; 0%N])).
Proof.
  repeat split; try reflexivity.
  rewrite load_done; simpl; tauto.
Qed.

(** ** Timing *)

(** C2. In every execution, whatever the host, the start time, the moment of
    the trigger and the lateness of the timers: a class is added no earlier
    than 4500 ms after the trigger; a navigation happens no earlier than
    4500 + 800 ms after it; the exit wait is set with delay 800 at the instant
    the class is added, and as long as the intro wait is pending no other wait
    has been set; a navigation comes at least 800 ms after the exit wait was
    set; and at most one timer is pending at any stage. *)
Theorem intro_waits_are_sequential (h : Host) (t : Z) (wait : N) (lateness : list N) :
  let p := load h t wait lateness in
  let t0 := trigger t wait in
  (forall tau c, In (tau, ClassAdded c) (log p) -> t0 + introDuration <= tau)
  /\ (forall tau u, In (tau, Navigated u) (log p) ->
        t0 + introDuration + exitDuration <= tau)
  /\ (forall tau d, In (tau, TimerSet on_exit_elapsed d) (log p) ->
        d = exitDuration /\ In (tau, ClassAdded "fade-out") (log p))
  /\ (forall d, In (Timer d on_intro_elapsed) (timers p) ->
        forall tau f d', In (tau, TimerSet f d') (log p) -> f = on_intro_elapsed)
  /\ (forall tau u, In (tau, Navigated u) (log p) ->
        exists tau', In (tau', TimerSet on_exit_elapsed exitDuration) (log p)
                     /\ tau' + exitDuration <= tau)
  /\ (List.length (timers p) <= 1)%nat.
Proof.
  intros p t0; subst p t0.
  by_stage lateness; (split; [| split; [| split; [| split; [| split]]]]).
  all: try (simpl; lia).
  all: try (intros tau x H; in_log H; lia).
  all: try (intros tau x H; in_log H; split; [reflexivity | simpl; tauto]).
  all: try (intros d H tau f d' H'; in_log H; in_log H'; reflexivity).
  intros tau u H; in_log H.
  eexists; split; [simpl; right; right; right; left; reflexivity | lia].
Qed.

(** ** Navigation *)

(** C4. A run in which both timers fire navigates exactly once, to the
    literal path /login, and leaves no timer behind; this holds for every
    host, start time and lateness, so nothing the page is in can prevent it.
    At no stage of any run is there more than one navigation or a navigation
    to another address. *)
Theorem exactly_one_navigation_to_login
    (h : Host) (t : Z) (wait l1 l2 : N) (rest lateness : list N) :
  let done := load h t wait (l1 :: l2 :: rest) in
  let p := load h t wait lateness in
  navigations done = [Navigated "/login"]
  /\ location_href done = "/login"
  /\ timers done = []
  /\ (List.length (navigations p) <= 1)%nat
  /\ (forall u, In (Navigated u) (effects p) -> u = "/login").
Proof.
  intros done p; subst done p.
  rewrite load_done; cbv zeta.
  split; [reflexivity |]. split; [reflexivity |]. split; [reflexivity |].
  by_stage lateness; split; try (cbv; lia).
  all: intros u H; unfold effects in H; in_log H; reflexivity.
Qed.

(** ** Repeated loads *)

(** The log of a load, with times counted from the trigger, depends on the
    wait for the trigger and on the lateness of the timers only. *)
Lemma timeline_invariant (h h' : Host) (t t' : Z) (wait : N) (lateness : list N) :
  timeline_from (trigger t' wait) (load h' t' wait lateness)
  = timeline_from (trigger t wait) (load h t wait lateness).
Proof.
  destruct lateness as [| l1 [| l2 rest]];
    [ rewrite !load_pending | rewrite !load_fading | rewrite !load_done ];
    cbv [timeline_from map log fst snd trigger];
    repeat (apply f_equal2; [apply f_equal2; [lia | reflexivity] |]);
    reflexivity.
Qed.

(** C8. A second load of the page, in the same tab after the first, has the
    same effects in the same order as the first (the same class, the same two
    delays, the same target), whatever the two hosts, clocks and latenesses
    are; with the same wait for the trigger and the same lateness its timeline,
    counted from its own trigger, is the first one's; and the script passes
    nothing on: the storage of the origin is what it was before either load,
    and the second document's classes are those of a load that had no
    predecessor. *)
Theorem loads_repeat_the_timeline
    (h h' : Host) (t : Z) (wait wait' gap l1 l2 l1' l2' : N)
    (rest rest' lateness : list N) :
  let first := load h t wait (l1 :: l2 :: rest) in
  let second := reload h' first gap wait' (l1' :: l2' :: rest') in
  let prev := load h t wait lateness in
  effects second = effects first
  /\ timeline_from (trigger (now prev + Z.of_N gap) wait)
                   (reload h' prev gap wait lateness)
     = timeline_from (trigger t wait) prev
  /\ local_storage first = stored h
  /\ local_storage second = stored h
  /\ body_classes second = body_classes (load h' t wait' (l1' :: l2' :: rest')).
Proof.
  intros first second prev; subst first second prev; unfold reload.
  split; [rewrite !load_done; reflexivity |].
  split; [apply timeline_invariant |].
  rewrite !load_done; cbv zeta. repeat split; reflexivity.
Qed.

(** ** The class list *)

Lemma has_token_In (token : string) (l : list string) :
  has_token token l = true <-> In token l.
Proof.
  unfold has_token; rewrite existsb_exists; split.
  - intros [x [Hx E]]; apply String.eqb_eq in E; subst; exact Hx.
  - intros H; exists token; split; [exact H | apply String.eqb_refl].
Qed.

Lemma classList_add_spec (token : string) (p : Page) (c : string) :
  In c (body_classes (classList_add token p))
  <-> In c (body_classes p) \/ c = token.
Proof.
  unfold classList_add; simpl.
  destruct (has_token token (body_classes p)) eqn:E.
  - apply has_token_In in E; split; [tauto | intros [H | ->]; assumption].
  - rewrite in_app_iff; simpl; split; intros [H | H]; auto.
    destruct H as [<- | []]; auto.
Qed.

(** No function of the script takes a class away. *)
Lemma call_keeps_classes (f : closure) (p : Page) (c : string) :
  In c (body_classes p) -> In c (body_classes (call f p)).
Proof.
  intros H; destruct f; simpl; try exact H.
  apply (classList_add_spec "fade-out" p c); left; exact H.
Qed.

Lemma event_loop_keeps_classes (lateness : list N) (p : Page) (c : string) :
  In c (body_classes p) -> In c (body_classes (event_loop lateness p)).
Proof.
  revert p; induction lateness as [| late more IH]; intros p H; [exact H |].
  simpl; destruct (pick (timers p)) as [[t rest] |]; [| exact H].
  apply IH; unfold fire; apply call_keeps_classes; exact H.
Qed.

(** C10. Once the first timer has fired, the script has changed the classes
    of the body by one operation, the addition of fade-out, and the body has
    the classes of the markup and fade-out, nothing more and nothing less;
    before that the classes are those of the markup; and a class the body has
    at one stage of a run it has at every later stage. *)
Theorem exit_state_is_the_fade_out_class
    (h : Host) (t : Z) (wait l1 : N) (rest lateness more : list N) :
  let p := load h t wait (l1 :: rest) in
  class_changes p = [ClassAdded "fade-out"]
  /\ (forall c, In c (body_classes p) <-> In c (markup_classes h) \/ c = "fade-out")
  /\ body_classes (load h t wait []) = markup_classes h
  /\ (forall c, In c (body_classes (load h t wait lateness)) ->
                In c (body_classes (load h t wait (lateness ++ more)))).
Proof.
  intros p; subst p.
  assert (F : forall c,
             In c (if has_token "fade-out" (markup_classes h)
                   then markup_classes h else (markup_classes h ++ ["fade-out"])%list)
             <-> In c (markup_classes h) \/ c = "fade-out").
  { intros c. apply (classList_add_spec "fade-out" (load h t wait []) c). }
  split; [| split; [| split]].
  - destruct rest as [| l2 rest]; [rewrite load_fading | rewrite load_done];
      reflexivity.
  - destruct rest as [| l2 rest]; [rewrite load_fading | rewrite load_done];
      exact F.
  - reflexivity.
  - intros c; rewrite load_app; apply event_loop_keeps_classes.
Qed.

End IntroFacts.

(* ===================================================================== *)
(** * Properties of init_git.bat *)
(* ===================================================================== *)

Module BootstrapFacts.
Import Bootstrap.
Local Open Scope list_scope.

Section Runs.

Variable World : Type.
Variable exec : string -> World -> World * Z.

(** A run whose [git init] fails. *)
Lemma run_failure (w : World) (lvl : Z) :
  init_status exec w <> 0 ->
  run exec w lvl
  = (Leave None,
     mkCmd World (fst (exec git_init w)) (init_status exec w) false
           (initialization ++ failure_report)).
Proof.
  cbv [run init_git init_status bind external get_errorlevel if_neq echo
       pause emit echo_off exit_b ret world errorlevel echoing console app
       initialization failure_report].
  destruct (exec git_init w) as [wa s]; cbv [fst snd]; intros H.
  destruct (s =? 0) eqn:E; [apply Z.eqb_eq in E; contradiction |].
  reflexivity.
Qed.

(** A run whose [git init] succeeds: each command runs in the world its
    predecessor left, and ERRORLEVEL ends as the status of the commit. *)
Lemma run_success (w : World) (lvl : Z) :
  init_status exec w = 0 ->
  run exec w lvl
  = (Next tt,
     let wa := fst (exec git_init w) in
     let wb := fst (exec git_add wa) in
     mkCmd World (fst (exec git_commit wb)) (snd (exec git_commit wb)) false
           (initialization ++ staging_and_commit ++ instructions ++ [Pause])).
Proof.
  cbv [run init_git init_status bind external get_errorlevel if_neq
       echo pause emit echo_off exit_b ret world errorlevel echoing console
       app initialization staging_and_commit instructions success_message].
  destruct (exec git_init w) as [wa s]; cbv [fst snd]; intros ->.
  cbv [Z.eqb negb].
  destruct (exec git_add wa) as [wb sb].
  destruct (exec git_commit wb) as [wc sc]; reflexivity.
Qed.

(** Nothing of steps 3 to 5 is on the console of a failed run. *)
Lemma later_steps_not_in_failure (a : action) :
  In a (staging_and_commit ++ instructions) ->
  ~ In a (initialization ++ failure_report).
Proof.
  intros Ha Hf.
  cbv [staging_and_commit instructions success_message app In] in Ha.
  cbv [initialization failure_report app In] in Hf.
  repeat (destruct Ha as [Ha | Ha]); try contradiction; subst a;
    repeat (destruct Hf as [Hf | Hf]); try contradiction; discriminate Hf.
Qed.

(** C3. When [git init] ends with a status other than 0, the script prints
    the diagnostic, pauses, and leaves; its console is the initialization
    followed by the failure report and nothing else.  Each action of steps 3
    to 5 (staging, commit, the lines of the instructions) is on the console
    if and only if [git init] ended with status 0. *)
Theorem failed_init_stops_the_script (w : World) (lvl : Z) :
  let r := run exec w lvl in
  (init_status exec w <> 0 ->
     fst r = Leave None
     /\ console World (snd r) = initialization ++ failure_report)
  /\ (forall a, In a (staging_and_commit ++ instructions) ->
        (In a (console World (snd r)) <-> init_status exec w = 0)).
Proof.
  intros r; subst r.
  destruct (Z.eq_dec (init_status exec w) 0) as [E | E].
  - rewrite (run_success w lvl E); split; [intros H; contradiction |].
    intros a Ha; split; [intros _; exact E | intros _].
    cbv [snd console]. rewrite (app_assoc staging_and_commit).
    apply in_or_app; right; apply in_or_app; left; exact Ha.
  - rewrite (run_failure w lvl E); split; [intros _; split; reflexivity |].
    intros a Ha; split; [| intros H; contradiction].
    intros Hf; exfalso; exact (later_steps_not_in_failure a Ha Hf).
Qed.


(** C5. When [git init] fails, the last thing the script does is to wait
    for a key, and it leaves through [exit /b] with no operand: it names no
    status of its own, so ERRORLEVEL is what [git init] left. *)
Theorem failed_init_pauses_and_leaves_without_a_status (w : World) (lvl : Z) :
  init_status exec w <> 0 ->
  let r := run exec w lvl in
  fst r = Leave None
  /\ last (console World (snd r)) (Print "") = Pause
  /\ errorlevel World (snd r) = init_status exec w.
Proof.
  intros E r; subst r; rewrite (run_failure w lvl E).
  repeat split; reflexivity.
Qed.

(** C7. When [git init] succeeds the script runs to its last line: the
    console is the initialization, then staging and the commit, then the
    instructions, then the wait for a key.  The commands are [git init],
    [git add .] and the commit, in this order, each in the world its
    predecessor left; the commit is given its message through [-m]; the
    instructions show the placeholder remote and the branch main. *)
Theorem success_path_runs_in_order (w : World) (lvl : Z) :
  init_status exec w = 0 ->
  let r := run exec w lvl in
  fst r = Next tt
  /\ console World (snd r)
     = initialization ++ staging_and_commit ++ instructions ++ [Pause]
  /\ filter is_exec (console World (snd r))
     = [Exec git_init; Exec git_add; Exec git_commit]
  /\ world World (snd r)
     = fst (exec git_commit (fst (exec git_add (fst (exec git_init w)))))
  /\ argv git_commit = ["git"; "commit"; "-m"; "Initial commit for Majima AI"]
  /\ In (Print "   git remote add origin https://github.com/YOUR_USERNAME/YOUR_REPO_NAME.git")
        instructions
  /\ In (Print "   git branch -M main") instructions
  /\ last (console World (snd r)) (Print "") = Pause.
Proof.
  intros E r; subst r; rewrite (run_success w lvl E); cbv zeta.
  repeat split; try reflexivity; cbv [instructions In]; tauto.
Qed.

(** C9. The message of the commit the script makes is exactly
    Initial commit for Majima AI: it is what [git commit] receives after
    [-m], and a run makes this one commit when [git init] succeeded and no
    commit otherwise. *)
Theorem commit_message_is_fixed (w : World) (lvl : Z) :
  commit_message git_commit = Some "Initial commit for Majima AI"
  /\ commit_messages (console World (snd (run exec w lvl)))
     = if init_status exec w =? 0 then ["Initial commit for Majima AI"] else [].
Proof.
  split; [reflexivity |].
  destruct (Z.eq_dec (init_status exec w) 0) as [E | E].
  - rewrite (run_success w lvl E), E; reflexivity.
  - rewrite (run_failure w lvl E).
    destruct (init_status exec w =? 0) eqn:B;
      [apply Z.eqb_eq in B; contradiction | reflexivity].
Qed.


End Runs.


(** C6. The console and the way the script ends depend on whether [git init]
    succeeded and on nothing else: two runs that agree on that show the same,
    whatever staging and commit return in either.  After a successful
    [git init] the success message and every line of the instructions are
    printed. *)
Theorem only_the_initialization_is_checked
    (World : Type) (exec exec' : string -> World -> World * Z)
    (w w' : World) (lvl lvl' : Z) :
  (init_status exec w = 0 <-> init_status exec' w' = 0) ->
  fst (run exec w lvl) = fst (run exec' w' lvl')
  /\ console World (snd (run exec w lvl)) = console World (snd (run exec' w' lvl'))
  /\ (init_status exec w = 0 ->
        In success_message (console World (snd (run exec w lvl)))
        /\ incl instructions (console World (snd (run exec w lvl)))).
Proof.
  intros [LR RL].
  destruct (Z.eq_dec (init_status exec w) 0) as [E | E].
  - rewrite (run_success World exec w lvl E),
            (run_success World exec' w' lvl' (LR E)); cbv zeta.
    split; [reflexivity |]. split; [reflexivity |]. intros _.
    cbv [snd console]; split.
    + apply in_or_app; right; apply in_or_app; right; apply in_or_app; left.
      cbv [instructions In]; tauto.
    + intros a Ha.
      apply in_or_app; right; apply in_or_app; right; apply in_or_app; left.
      exact Ha.
  - assert (E' : init_status exec' w' <> 0) by (intros H; exact (E (RL H))).
    rewrite (run_failure World exec w lvl E), (run_failure World exec' w' lvl' E').
    split; [reflexivity |]. split; [reflexivity |]. intros H; contradiction.
Qed.


(** ** The theorems at the sample environments *)

(** Without git: the run ends at the pause of the failure block, with the
    9009 of the interpreter as ERRORLEVEL. *)
Lemma failed_init_without_git :
  init_status no_git tt <> 0
  /\ fst (run no_git tt 0) = Leave None
  /\ last (console unit (snd (run no_git tt 0))) (Print "") = Pause
  /\ errorlevel unit (snd (run no_git tt 0)) = 9009.
Proof.
  assert (H : init_status no_git tt <> 0) by (vm_compute; discriminate).
  split; [exact H |].
  exact (failed_init_pauses_and_leaves_without_a_status unit no_git tt 0 H).
Defined.

(** Staging and commit failing with 128 show the same console as staging and
    commit succeeding. *)
Lemma failing_commit_looks_like_success :
  fst (run only_init_works tt 0) = fst (run git_works tt 0)
  /\ console unit (snd (run only_init_works tt 0))
     = console unit (snd (run git_works tt 0))
  /\ (init_status only_init_works tt = 0 ->
        In success_message (console unit (snd (run only_init_works tt 0)))
        /\ incl instructions (console unit (snd (run only_init_works tt 0)))).
Proof.
  apply (only_the_initialization_is_checked unit only_init_works git_works tt tt 0 0).
  split; intros _; reflexivity.
Defined.

(** With a working git the run goes through all of its steps. *)
Lemma success_with_git :
  fst (run git_works tt 0) = Next tt
  /\ console unit (snd (run git_works tt 0))
     = initialization ++ staging_and_commit ++ instructions ++ [Pause]
  /\ filter is_exec (console unit (snd (run git_works tt 0)))
     = [Exec git_init; Exec git_add; Exec git_commit]
  /\ world unit (snd (run git_works tt 0)) = tt
  /\ argv git_commit = ["git"; "commit"; "-m"; "Initial commit for Majima AI"]
  /\ In (Print "   git remote add origin https://github.com/YOUR_USERNAME/YOUR_REPO_NAME.git")
        instructions
  /\ In (Print "   git branch -M main") instructions
  /\ last (console unit (snd (run git_works tt 0))) (Print "") = Pause.
Proof.
  apply (success_path_runs_in_order unit git_works tt 0); reflexivity.
Defined.


End BootstrapFacts.
